(** * FileIndexManager: a shallow embedding of src/FileIndexManager.js

    The module keeps a dictionary of named file indexes and one dirty
    flag.  Every query first calls [syncFileIndex], which rebuilds all
    the indexes from the project tree when the flag is set.

    Modelling decisions.
    - [_indexList] is a JavaScript object used as a dictionary: its own
      keys are a [gmap string FileIndex].  Two names are not ordinary
      keys of such an object.  Assigning to "__proto__" creates no own
      key, and an index stored under "hasOwnProperty" hides the method
      that [_addIndex] calls; [_addIndex] is modelled with both.  The
      module itself adds "all" and "css" only, and the iteration of
      [$.each] and the queries are those of a registry with the
      prototype and the method it was created with.
    - The module-level variables, the project root held by
      ProjectManager and the calls made to the collaborators that are
      not part of the source file (PerfUtils, brackets.showModalDialog)
      form the explicit state [State]; the collaborator calls are
      recorded, in order, in [trace].
    - [readEntries] delivers the children of a directory to its success
      callback, or calls the error callback.  The callback is run at the
      point of the call, so a rebuild is one uninterrupted pass.
    - [throw new Error(msg)] is the completion [Throw (Error msg)]; the
      state reached before the throw is kept. *)

From stdpp Require Import gmap strings pretty list fin_maps.
From Stdlib Require Import ZArith String Ascii List Lia.
Import ListNotations.

Set Warnings "-register-all,-abstract-large-number".

Local Open Scope string_scope.
Local Open Scope list_scope.
Local Open Scope Z_scope.

(** ** Values of the host language *)

(** The values the parameter [fileCount] can take: it is [undefined]
    when the caller leaves the argument out, [NaN] after [undefined++],
    or a number. *)
Inductive JsNumber : Type :=
  | undefined
  | NaN
  | Num (n : Z).

(** [fileCount > 10000]: [undefined] converts to [NaN], and every
    comparison with [NaN] is false. *)
Definition gt_number (v : JsNumber) (bound : Z) : bool :=
  match v with
  | Num n => bound <? n
  | undefined | NaN => false
  end.

(** [fileCount++] *)
Definition incr (v : JsNumber) : JsNumber :=
  match v with
  | Num n => Num (n + 1)
  | undefined | NaN => NaN
  end.

(** [String.prototype.slice(start, end)]: a negative index counts from
    the end of the string, and both indexes are clamped to the string. *)
Definition slice (s : string) (start end_ : Z) : string :=
  let len := Z.of_nat (String.length s) in
  let from := if start <? 0 then Z.max (len + start) 0 else Z.min start len in
  let to := if end_ <? 0 then Z.max (len + end_) 0 else Z.min end_ len in
  let span := Z.max (to - from) 0 in
  String.substring (Z.to_nat from) (Z.to_nat span) s.

(** ** Directory entries (the NativeFileSystem collaborator)

    An entry exposes [name], [fullPath], [isFile] and [isDirectory];
    [createReader().readEntries(success, error)] either hands the list
    of children to [success] ([Some entries]) or calls [error]
    ([None]). *)
Inductive Entry : Type :=
  mkEntry (name fullPath : string) (isFile isDirectory : bool)
          (readEntries : option (list Entry)).

Definition entry_name (e : Entry) : string :=
  match e with mkEntry n _ _ _ _ => n end.
Definition entry_fullPath (e : Entry) : string :=
  match e with mkEntry _ p _ _ _ => p end.
Definition isFile (e : Entry) : bool :=
  match e with mkEntry _ _ f _ _ => f end.
Definition isDirectory (e : Entry) : bool :=
  match e with mkEntry _ _ _ d _ => d end.
Definition readEntries (e : Entry) : option (list Entry) :=
  match e with mkEntry _ _ _ _ r => r end.

(** ** The classes of the module *)

(** class FileInfo *)
Record FileInfo : Type := mkFileInfo { name : string; fullPath : string }.

(** [new FileInfo(entry)] *)
Definition new_FileInfo (entry : Entry) : FileInfo :=
  {| name := entry_name entry; fullPath := entry_fullPath entry |}.

(** class FileIndex *)
Record FileIndex : Type := mkFileIndex {
  indexName : string;
  fileInfos : list FileInfo;
  filterFunction : Entry -> bool
}.

(** [new FileIndex(indexName, filterFunction)] *)
Definition new_FileIndex (indexName : string) (filterFunction : Entry -> bool) : FileIndex :=
  {| indexName := indexName; fileInfos := []; filterFunction := filterFunction |}.

Definition set_fileInfos (l : list FileInfo) (index : FileIndex) : FileIndex :=
  {| indexName := indexName index; fileInfos := l; filterFunction := filterFunction index |}.

(** An argument of [_addIndex] that is tested with [typeof]. *)
Inductive JsValue : Type :=
  | Function (f : Entry -> bool)
  | NotAFunction.

(** ** State and effects *)

(** Calls to the collaborators, in the order they are made. *)
Inductive Event : Type :=
  | PerfUtils_markStart (id : string)
  | PerfUtils_addMeasurement (id : string)
  | showModalDialog_ERROR_MAX_FILES.

Record State : Type := mkState {
  _indexList : gmap string FileIndex;
  _indexListDirty : bool;
  projectRoot : option Entry;
  trace : list Event
}.

Definition set_indexList (m : gmap string FileIndex) (s : State) : State :=
  {| _indexList := m; _indexListDirty := _indexListDirty s;
     projectRoot := projectRoot s; trace := trace s |}.
Definition set_indexListDirty (b : bool) (s : State) : State :=
  {| _indexList := _indexList s; _indexListDirty := b;
     projectRoot := projectRoot s; trace := trace s |}.
Definition set_projectRoot (r : option Entry) (s : State) : State :=
  {| _indexList := _indexList s; _indexListDirty := _indexListDirty s;
     projectRoot := r; trace := trace s |}.
Definition emit (ev : Event) (s : State) : State :=
  {| _indexList := _indexList s; _indexListDirty := _indexListDirty s;
     projectRoot := projectRoot s; trace := trace s ++ [ev] |}.

Inductive exn : Type :=
  | Error (message : string)
  | TypeError.

Inductive completion (A : Type) : Type :=
  | Normal (a : A)
  | Throw (e : exn).
Arguments Normal {A} a.
Arguments Throw {A} e.

(** Computations that may throw: the state is threaded through and kept
    when an exception is raised. *)
Definition M (A : Type) : Type := State -> completion A * State.

Definition ret {A} (a : A) : M A := fun s => (Normal a, s).
Definition throw {A} (e : exn) : M A := fun s => (Throw e, s).
Definition bind {A B} (m : M A) (k : A -> M B) : M B :=
  fun s => match m s with
           | (Normal a, s') => k a s'
           | (Throw e, s') => (Throw e, s')
           end.
Definition call (f : State -> State) : M unit := fun s => (Normal tt, f s).

Notation "'let!' x ':=' m 'in' k" := (bind m (fun x => k))
  (at level 10, x name, m at level 99, k at level 200).
Notation "m ';;' k" := (bind m (fun _ => k))
  (at level 100, right associativity).

(** ** The functions of the module *)

(** [_indexList[key] = index] on the own keys of the object: the key
    "__proto__" reaches the setter inherited from [Object.prototype],
    which replaces the prototype and creates no own key. *)
Definition assign (key : string) (index : FileIndex) (m : gmap string FileIndex)
    : gmap string FileIndex :=
  if decide (key = "__proto__") then m else <[key := index]> m.

(** [_indexList.hasOwnProperty(indexName)] looks [hasOwnProperty] up on
    the object first: when an index is stored under that name the value
    found is the index, which cannot be called, and the call throws a
    [TypeError]. *)
Definition _addIndex (indexName : string) (filterFunction : JsValue) : M unit :=
  fun s =>
    if decide (is_Some (_indexList s !! "hasOwnProperty")) then throw TypeError s
    else if decide (is_Some (_indexList s !! indexName)) then
      throw (Error "Duplicate index name") s
    else
      match filterFunction with
      | NotAFunction => throw (Error "Invalid arguments") s
      | Function f =>
          (Normal tt,
           set_indexListDirty true
             (set_indexList (assign indexName (new_FileIndex indexName f) (_indexList s)) s))
      end.

Definition filterAndAdd (index : FileIndex) (entry : Entry) (fileInfo : FileInfo) : FileIndex :=
  if filterFunction index entry
  then set_fileInfos (fileInfos index ++ [fileInfo]) index
  else index.

Definition _addFileToIndexes (entry : Entry) (s : State) : State :=
  let fileInfo := new_FileInfo entry in
  set_indexList ((fun index => filterAndAdd index entry fileInfo) <$> _indexList s) s.

Definition _showMaxFilesDialog (s : State) : State :=
  emit showModalDialog_ERROR_MAX_FILES s.

(** The body of [_scanDirectoryRecurse] for a directory entry that is
    not null.  The loop threads the local variable [fileCount] and the
    state; the recursive call passes one argument only, so the callee's
    [fileCount] is [undefined]. *)
Fixpoint _scanDirectoryRecurse_entry (dirEntry : Entry) (fileCount : JsNumber)
    (s : State) {struct dirEntry} : State :=
  if gt_number fileCount 10000 then _showMaxFilesDialog s
  else
    match dirEntry with
    | mkEntry _ _ _ _ (Some entries) =>
        snd (fold_left
               (fun (acc : JsNumber * State) (entry : Entry) =>
                  if isFile entry
                  then (incr (fst acc), _addFileToIndexes entry (snd acc))
                  else if isDirectory entry
                       then (fst acc, _scanDirectoryRecurse_entry entry undefined (snd acc))
                       else acc)
               entries (fileCount, s))
    | mkEntry _ _ _ _ None => s
    end.

(** One turn of the [forEach] callback, and the files it discovers. *)
Definition forEach_step (acc : JsNumber * State) (entry : Entry) : JsNumber * State :=
  if isFile entry
  then (incr (fst acc), _addFileToIndexes entry (snd acc))
  else if isDirectory entry
       then (fst acc, _scanDirectoryRecurse_entry entry undefined (snd acc))
       else acc.

Definition _scanDirectoryRecurse (dirEntry : option Entry) (fileCount : JsNumber)
    (s : State) : State :=
  match dirEntry with
  | None => s
  | Some dirEntry => _scanDirectoryRecurse_entry dirEntry fileCount s
  end.

Definition _clearIndexes (s : State) : State :=
  set_indexList (set_fileInfos [] <$> _indexList s) s.

Definition markDirty (s : State) : State := set_indexListDirty true s.

Definition syncFileIndex (s : State) : State :=
  if _indexListDirty s then
    let s := emit (PerfUtils_markStart "FileIndexManager.syncFileIndex()") s in
    let s := _clearIndexes s in
    let s := _scanDirectoryRecurse (projectRoot s) undefined s in
    let s := emit (PerfUtils_addMeasurement "FileIndexManager.syncFileIndex()") s in
    set_indexListDirty false s
  else s.

Definition getFileInfoList (indexName : string) : M (list FileInfo) :=
  call syncFileIndex ;;
  fun s =>
    match _indexList s !! indexName with
    | None => throw (Error "indexName not found") s
    | Some index => ret (fileInfos index) s
    end.

Definition getFilteredList (indexName : string) (filterFunction : string -> bool)
    : M (list FileInfo) :=
  call syncFileIndex ;;
  let! fileList := getFileInfoList indexName in
  ret (fold_left
         (fun results fileInfo =>
            if filterFunction (name fileInfo) then results ++ [fileInfo] else results)
         fileList []).

Definition getFilenameMatches (indexName : string) (filename : string)
    : M (list FileInfo) :=
  getFilteredList indexName (fun item => String.eqb item filename).

(** The filter functions of the two indexes added when the module loads. *)
Definition all_filterFunction (entry : Entry) : bool := true.

Definition css_filterFunction (entry : Entry) : bool :=
  let filename := entry_name entry in
  let len := Z.of_nat (String.length filename) in
  String.eqb (slice filename (len - 4) len) ".css".

(** The handler registered for ProjectManager's "projectRootChanged". *)
Definition on_projectRootChanged (s : State) : State := syncFileIndex s.

(** The state before the module body runs, for a given project root. *)
Definition fresh (root : option Entry) : State :=
  {| _indexList := ∅; _indexListDirty := true; projectRoot := root; trace := [] |}.

(** The module body: the two [_addIndex] calls. *)
Definition module_body : M unit :=
  _addIndex "all" (Function all_filterFunction) ;;
  _addIndex "css" (Function css_filterFunction).

Definition loaded (root : option Entry) : State := snd (module_body (fresh root)).

(** ** The walk, as a list

    [visited dirEntry] lists, in discovery order, the file entries that
    a walk from [dirEntry] hands to [_addFileToIndexes]. *)
Fixpoint visited (dirEntry : Entry) : list Entry :=
  match dirEntry with
  | mkEntry _ _ _ _ (Some entries) =>
      flat_map (fun entry =>
                  if isFile entry then [entry]
                  else if isDirectory entry then visited entry else [])
               entries
  | mkEntry _ _ _ _ None => []
  end.

Definition found (entry : Entry) : list Entry :=
  if isFile entry then [entry]
  else if isDirectory entry then visited entry else [].

Definition walk (root : option Entry) : list Entry :=
  match root with
  | None => []
  | Some dirEntry => visited dirEntry
  end.

(** What one index holds after a rebuild over the files [files]. *)
Definition rebuilt (files : list Entry) (index : FileIndex) : FileIndex :=
  set_fileInfos (map new_FileInfo (List.filter (filterFunction index) files)) index.

(** Number of times the "too many files" dialog was shown. *)
Definition dialogs (t : list Event) : nat :=
  length (List.filter (fun ev => match ev with
                                 | showModalDialog_ERROR_MAX_FILES => true
                                 | _ => false
                                 end) t).

(** A filter that reads nothing of an entry but its name and path. *)
Definition reads_name_and_path_only (f : Entry -> bool) : Prop :=
  forall e1 e2 : Entry,
    entry_name e1 = entry_name e2 -> entry_fullPath e1 = entry_fullPath e2 -> f e1 = f e2.

(** Every record of every index was built from an entry that the
    index's filter accepts. *)
Definition record_sound (index : FileIndex) (r : FileInfo) : Prop :=
  exists e : Entry, new_FileInfo e = r /\ filterFunction index e = true.

Definition indexes_sound (s : State) : Prop :=
  forall (k : string) (index : FileIndex),
    _indexList s !! k = Some index -> Forall (record_sound index) (fileInfos index).

(** What the walk of one directory does to a registry whose indexes hold
    the records of [files]: the invariant of the loop over the children. *)
Definition walk_adds (dirEntry : Entry) : Prop :=
  forall (files : list Entry) (m : gmap string FileIndex) (s : State),
    _scanDirectoryRecurse_entry dirEntry undefined (set_indexList (rebuilt files <$> m) s)
    = set_indexList (rebuilt (files ++ visited dirEntry) <$> m) s.

(** ** What the clients and the environment can do *)

Inductive Action : Type :=
  | do_markDirty
  | do_getFileInfoList (indexName : string)
  | do_getFilteredList (indexName : string) (filterFunction : string -> bool)
  | do_getFilenameMatches (indexName filename : string)
  | do_addIndex (indexName : string) (filterFunction : JsValue)
  | projectRootChanged (root : option Entry)
  | fileSystemChanged (root : option Entry).

(** [projectRootChanged]: ProjectManager switches to another root and
    triggers the handler.  [fileSystemChanged]: the tree changes on
    disk, which nobody is told about. *)
Definition perform (a : Action) (s : State) : State :=
  match a with
  | do_markDirty => markDirty s
  | do_getFileInfoList indexName => snd (getFileInfoList indexName s)
  | do_getFilteredList indexName f => snd (getFilteredList indexName f s)
  | do_getFilenameMatches indexName filename => snd (getFilenameMatches indexName filename s)
  | do_addIndex indexName f => snd (_addIndex indexName f s)
  | projectRootChanged root => on_projectRootChanged (set_projectRoot root s)
  | fileSystemChanged root => set_projectRoot root s
  end.

Inductive reachable : State -> Prop :=
  | reachable_loaded (root : option Entry) : reachable (loaded root)
  | reachable_perform (a : Action) (s : State) : reachable s -> reachable (perform a s).

(** ** Induction over a directory tree *)

Section EntryInduction.
Variable P : Entry -> Prop.
Hypothesis P_error : forall n p f d, P (mkEntry n p f d None).
Hypothesis P_entries :
  forall n p f d entries, Forall P entries -> P (mkEntry n p f d (Some entries)).

Fixpoint Entry_tree_ind (e : Entry) : P e :=
  match e with
  | mkEntry n p f d None => P_error n p f d
  | mkEntry n p f d (Some entries) =>
      P_entries n p f d entries
        ((fix all (l : list Entry) : Forall P l :=
            match l with
            | [] => Forall_nil P
            | x :: l' => Forall_cons P x l' (Entry_tree_ind x) (all l')
            end) entries)
  end.
End EntryInduction.

(** ** Example trees *)

Definition file (name fullPath : string) : Entry :=
  mkEntry name fullPath true false None.
Definition directory (name fullPath : string) (entries : list Entry) : Entry :=
  mkEntry name fullPath false true (Some entries).

(** main.js, theme.css and reset.CSS in one directory. *)
Definition css_tree : Entry :=
  directory "site" "/site"
    [file "main.js" "/site/main.js";
     file "theme.css" "/site/theme.css";
     file "reset.CSS" "/site/reset.CSS"].

(** /a/style.css and /b/style.css. *)
Definition style_tree : Entry :=
  directory "" "/"
    [directory "a" "/a" [file "style.css" "/a/style.css"];
     directory "b" "/b" [file "style.css" "/b/style.css"]].

(** A directory that holds [n] files and nothing else. *)
Definition numbered_file (i : nat) : Entry :=
  file ("f" +:+ pretty i) ("/big/f" +:+ pretty i).
Definition flat_tree (n : nat) : Entry :=
  directory "big" "/big" (map numbered_file (seq 0 n)).

(** The loaded registry after an index named "hasOwnProperty" was added. *)
Definition shadowed : State :=
  snd (_addIndex "hasOwnProperty" (Function all_filterFunction) (loaded None)).

(** A registry that was synchronised while [css_tree] was the project. *)
Definition synced_on_css_tree : State := syncFileIndex (loaded (Some css_tree)).

(** ** Notions used for the walk and for sequences of calls *)

(** An index after the records of the accepted files among [files] have
    been pushed onto what it held. *)
Definition extended (files : list Entry) (index : FileIndex) : FileIndex :=
  set_fileInfos
    (fileInfos index ++ map new_FileInfo (List.filter (filterFunction index) files))
    index.

(** The loop invariant of the walk on a registry in any condition. *)
Definition walk_extends (dirEntry : Entry) : Prop :=
  forall (fileCount : JsNumber) (s : State),
    gt_number fileCount 10000 = false ->
    _scanDirectoryRecurse_entry dirEntry fileCount s
    = set_indexList (extended (visited dirEntry) <$> _indexList s) s.

(** The records index [k] holds once the registry has been synchronised
    with [root] as the project root (none when [k] is not registered). *)
Definition indexed (root : Entry) (s : State) (k : string) : list FileInfo :=
  match _indexList (syncFileIndex (set_projectRoot (Some root) s)) !! k with
  | Some index => fileInfos index
  | None => []
  end.

(** A sequence of calls and events, first to last. *)
Definition run (actions : list Action) (s : State) : State :=
  fold_left (fun s a => perform a s) actions s.

(** The trace of [n] rebuilds. *)
Fixpoint rebuild_trace (n : nat) : list Event :=
  match n with
  | O => []
  | S n => rebuild_trace n
           ++ [PerfUtils_markStart "FileIndexManager.syncFileIndex()";
               PerfUtils_addMeasurement "FileIndexManager.syncFileIndex()"]
  end.

(** All the lists come from one list of files: the "all" index holds a
    record for each of them, the "css" index one for each that its
    filter accepts, and every index holds the records of the files it
    accepts or, when it was added since, nothing. *)
Definition one_walk (s : State) : Prop :=
  exists files : list Entry,
    (exists index : FileIndex,
       _indexList s !! "all" = Some index
       /\ filterFunction index = all_filterFunction
       /\ fileInfos index = map new_FileInfo files)
    /\ (exists index : FileIndex,
          _indexList s !! "css" = Some index
          /\ filterFunction index = css_filterFunction
          /\ fileInfos index = map new_FileInfo (List.filter css_filterFunction files))
    /\ forall (k : string) (index : FileIndex),
         _indexList s !! k = Some index ->
         fileInfos index = map new_FileInfo (List.filter (filterFunction index) files)
         \/ fileInfos index = [].

(** Every index is stored under its own name. *)
Definition keys_are_names (s : State) : Prop :=
  forall (k : string) (index : FileIndex),
    _indexList s !! k = Some index -> indexName index = k.

(** A directory with a file, a subdirectory that cannot be read, a
    device that is neither file nor directory, and a last file. *)
Definition patchy_tree : Entry :=
  directory "p" "/p"
    [file "a.css" "/p/a.css";
     mkEntry "locked" "/p/locked" false true None;
     mkEntry "dev" "/p/dev" false false None;
     file "z.css" "/p/z.css"].

(** * Properties *)

(** ** Record and map bookkeeping *)

Lemma set_fileInfos_same (index : FileIndex) :
  set_fileInfos (fileInfos index) index = index.
Proof. by destruct index. Qed.

Lemma set_indexList_same (s : State) : set_indexList (_indexList s) s = s.
Proof. by destruct s. Qed.

Lemma set_indexList_twice (m1 m2 : gmap string FileIndex) (s : State) :
  set_indexList m2 (set_indexList m1 s) = set_indexList m2 s.
Proof. reflexivity. Qed.

Lemma rebuilt_nil (index : FileIndex) : rebuilt [] index = set_fileInfos [] index.
Proof. reflexivity. Qed.

(** Adding one more file to an index that holds the records of [files]. *)
Lemma filterAndAdd_rebuilt (files : list Entry) (entry : Entry) (index : FileIndex) :
  filterAndAdd (rebuilt files index) entry (new_FileInfo entry)
  = rebuilt (files ++ [entry]) index.
Proof.
  unfold filterAndAdd, rebuilt. cbn [filterFunction set_fileInfos fileInfos indexName].
  rewrite List.filter_app, List.map_app. cbn [List.filter].
  destruct (filterFunction index entry); cbn [map].
  - reflexivity.
  - by rewrite !List.app_nil_r.
Qed.

Lemma rebuilt_rebuilt (files files' : list Entry) (index : FileIndex) :
  rebuilt files' (rebuilt files index) = rebuilt files' index.
Proof. reflexivity. Qed.

(** [_addFileToIndexes] on a registry whose indexes hold the records
    of [files]. *)
Lemma _addFileToIndexes_rebuilt (files : list Entry) (entry : Entry)
    (m : gmap string FileIndex) (s : State) :
  _addFileToIndexes entry (set_indexList (rebuilt files <$> m) s)
  = set_indexList (rebuilt (files ++ [entry]) <$> m) s.
Proof.
  unfold _addFileToIndexes. cbn [_indexList set_indexList].
  rewrite set_indexList_twice. f_equal.
  rewrite <- map_fmap_compose. apply map_fmap_ext.
  intros k index _. apply filterAndAdd_rebuilt.
Qed.

(** ** The walk adds the visited files, in order, and nothing else *)

Lemma _scanDirectoryRecurse_entry_unfold (dirEntry : Entry) (fileCount : JsNumber) (s : State) :
  _scanDirectoryRecurse_entry dirEntry fileCount s
  = if gt_number fileCount 10000 then _showMaxFilesDialog s
    else match readEntries dirEntry with
         | Some entries => snd (fold_left forEach_step entries (fileCount, s))
         | None => s
         end.
Proof. destruct dirEntry as [n p f d [entries|]]; reflexivity. Qed.

Lemma visited_unfold (dirEntry : Entry) :
  visited dirEntry
  = match readEntries dirEntry with
    | Some entries => flat_map found entries
    | None => []
    end.
Proof. destruct dirEntry as [n p f d [entries|]]; reflexivity. Qed.

Lemma forEach_adds (entries : list Entry) :
  Forall walk_adds entries ->
  forall (fileCount : JsNumber) (files : list Entry) (m : gmap string FileIndex) (s : State),
    snd (fold_left forEach_step entries (fileCount, set_indexList (rebuilt files <$> m) s))
    = set_indexList (rebuilt (files ++ flat_map found entries) <$> m) s.
Proof.
  induction 1 as [|entry entries Hentry _ IH]; intros fileCount files m s.
  - cbn. by rewrite List.app_nil_r.
  - cbn [fold_left flat_map]. unfold forEach_step at 2, found at 1.
    rewrite List.app_assoc.
    destruct (isFile entry); [|destruct (isDirectory entry)]; cbn [fst snd].
    + rewrite _addFileToIndexes_rebuilt. apply IH.
    + rewrite Hentry. apply IH.
    + rewrite List.app_nil_r. apply IH.
Qed.

Lemma walk_adds_all (dirEntry : Entry) : walk_adds dirEntry.
Proof.
  induction dirEntry as [n p f d|n p f d entries IH] using Entry_tree_ind;
    intros files m s; rewrite _scanDirectoryRecurse_entry_unfold, visited_unfold;
    cbn [gt_number readEntries].
  - by rewrite List.app_nil_r.
  - by apply forEach_adds.
Qed.

(** A registry is its own rebuild over no files once it is cleared. *)
Lemma _clearIndexes_rebuilt (s : State) :
  _clearIndexes s = set_indexList (rebuilt [] <$> _indexList s) s.
Proof. reflexivity. Qed.

Lemma _scanDirectoryRecurse_rebuilt (root : option Entry) (m : gmap string FileIndex) (s : State) :
  _scanDirectoryRecurse root undefined (set_indexList (rebuilt [] <$> m) s)
  = set_indexList (rebuilt (walk root) <$> m) s.
Proof.
  destruct root as [dirEntry|]; cbn [_scanDirectoryRecurse walk].
  - by rewrite walk_adds_all.
  - reflexivity.
Qed.

(** The whole effect of a rebuild. *)
Lemma syncFileIndex_dirty (s : State) :
  _indexListDirty s = true ->
  syncFileIndex s
  = {| _indexList := rebuilt (walk (projectRoot s)) <$> _indexList s;
       _indexListDirty := false;
       projectRoot := projectRoot s;
       trace := trace s ++ [PerfUtils_markStart "FileIndexManager.syncFileIndex()";
                            PerfUtils_addMeasurement "FileIndexManager.syncFileIndex()"] |}.
Proof.
  intros Hdirty. unfold syncFileIndex. rewrite Hdirty.
  rewrite _clearIndexes_rebuilt.
  cbn [projectRoot set_indexList emit].
  rewrite _scanDirectoryRecurse_rebuilt.
  unfold set_indexListDirty, emit, set_indexList. cbn.
  by rewrite <- List.app_assoc.
Qed.

Lemma syncFileIndex_clean (s : State) :
  _indexListDirty s = false -> syncFileIndex s = s.
Proof. intros Hclean. unfold syncFileIndex. by rewrite Hclean. Qed.

Lemma syncFileIndex_clears_dirty (s : State) :
  _indexListDirty (syncFileIndex s) = false.
Proof.
  destruct (_indexListDirty s) eqn:Hd.
  - by rewrite syncFileIndex_dirty.
  - by rewrite syncFileIndex_clean.
Qed.

(** The trace only grows by the two PerfUtils calls: no dialog. *)
Lemma syncFileIndex_dialogs (s : State) :
  dialogs (trace (syncFileIndex s)) = dialogs (trace s).
Proof.
  destruct (_indexListDirty s) eqn:Hd.
  - rewrite syncFileIndex_dirty by done. cbn [trace]. unfold dialogs.
    rewrite List.filter_app, List.length_app. cbn. lia.
  - by rewrite syncFileIndex_clean.
Qed.

Lemma syncFileIndex_lookup (s : State) (k : string) :
  _indexList (syncFileIndex s) !! k
  = (if _indexListDirty s then rebuilt (walk (projectRoot s)) else id) <$> _indexList s !! k.
Proof.
  destruct (_indexListDirty s) eqn:Hd.
  - rewrite syncFileIndex_dirty by done. cbn [_indexList]. apply lookup_fmap.
  - rewrite syncFileIndex_clean by done. by destruct (_indexList s !! k).
Qed.

Lemma syncFileIndex_registered (s : State) (k : string) :
  is_Some (_indexList (syncFileIndex s) !! k) <-> is_Some (_indexList s !! k).
Proof. rewrite syncFileIndex_lookup. apply fmap_is_Some. Qed.

Lemma syncFileIndex_idem (s : State) :
  syncFileIndex (syncFileIndex s) = syncFileIndex s.
Proof. apply syncFileIndex_clean, syncFileIndex_clears_dirty. Qed.

(** ** The module body *)

Lemma loaded_eq (root : option Entry) :
  loaded root
  = {| _indexList := <["css" := new_FileIndex "css" css_filterFunction]>
                       (<["all" := new_FileIndex "all" all_filterFunction]> ∅);
       _indexListDirty := true;
       projectRoot := root;
       trace := [] |}.
Proof. reflexivity. Qed.

Lemma module_body_returns (root : option Entry) :
  fst (module_body (fresh root)) = Normal tt.
Proof. reflexivity. Qed.

Lemma loaded_all (root : option Entry) :
  _indexList (loaded root) !! "all" = Some (new_FileIndex "all" all_filterFunction).
Proof. reflexivity. Qed.

Lemma loaded_css (root : option Entry) :
  _indexList (loaded root) !! "css" = Some (new_FileIndex "css" css_filterFunction).
Proof. reflexivity. Qed.

(** ** The queries *)

Lemma getFileInfoList_run (indexName : string) (s : State) :
  getFileInfoList indexName s
  = (match _indexList (syncFileIndex s) !! indexName with
     | Some index => Normal (fileInfos index)
     | None => Throw (Error "indexName not found")
     end, syncFileIndex s).
Proof.
  unfold getFileInfoList, bind, call, throw, ret.
  by destruct (_indexList (syncFileIndex s) !! indexName).
Qed.

Lemma forEach_push (p : string -> bool) (fileList results : list FileInfo) :
  fold_left (fun results fileInfo =>
               if p (name fileInfo) then results ++ [fileInfo] else results)
            fileList results
  = results ++ List.filter (fun fileInfo => p (name fileInfo)) fileList.
Proof.
  revert results. induction fileList as [|fileInfo fileList IH]; intros results; cbn.
  - by rewrite List.app_nil_r.
  - rewrite IH. destruct (p (name fileInfo)); [|done].
    by rewrite <- List.app_assoc.
Qed.

Lemma getFilteredList_run (indexName : string) (p : string -> bool) (s : State) :
  getFilteredList indexName p s
  = (match _indexList (syncFileIndex s) !! indexName with
     | Some index => Normal (List.filter (fun fileInfo => p (name fileInfo)) (fileInfos index))
     | None => Throw (Error "indexName not found")
     end, syncFileIndex s).
Proof.
  unfold getFilteredList, bind at 1, call.
  unfold bind. rewrite getFileInfoList_run, syncFileIndex_idem.
  destruct (_indexList (syncFileIndex s) !! indexName); [|done].
  unfold ret. by rewrite forEach_push.
Qed.

(** ** Records come from accepted entries *)

Lemma rebuilt_sound (files : list Entry) (index : FileIndex) :
  Forall (record_sound (rebuilt files index)) (fileInfos (rebuilt files index)).
Proof.
  apply List.Forall_forall. intros r Hr. cbn [rebuilt set_fileInfos fileInfos] in Hr.
  apply List.in_map_iff in Hr as (e & He & Hin).
  apply List.filter_In in Hin as [_ Hacc].
  by exists e.
Qed.

Lemma syncFileIndex_sound (s : State) :
  indexes_sound s -> indexes_sound (syncFileIndex s).
Proof.
  intros Hs k index. rewrite syncFileIndex_lookup.
  destruct (_indexList s !! k) as [index0|] eqn:Hk; [|done].
  destruct (_indexListDirty s); cbn; intros [= <-].
  - apply rebuilt_sound.
  - by apply (Hs k).
Qed.

(** The state [_addIndex] leaves: the one it found when it throws, the
    same with the flag set after an assignment to "__proto__", and the
    same with the flag set and one more key otherwise. *)
Lemma _addIndex_state (indexName : string) (f : JsValue) (s : State) :
  snd (_addIndex indexName f s) = s
  \/ snd (_addIndex indexName f s) = set_indexListDirty true s
  \/ exists g : Entry -> bool,
       f = Function g
       /\ _indexList s !! indexName = None
       /\ snd (_addIndex indexName f s)
          = set_indexListDirty true
              (set_indexList (<[indexName := new_FileIndex indexName g]> (_indexList s)) s).
Proof.
  unfold _addIndex, throw. case_decide as Hshadow; [by left|].
  case_decide as Hdup; [by left|]. destruct f as [g|]; [|by left].
  unfold assign. case_decide as Hproto; cbn [snd].
  - right. left. by rewrite set_indexList_same.
  - right. right. exists g. split; [done|]. split; [|done].
    destruct (_indexList s !! indexName) eqn:Hk; [|done].
    exfalso. apply Hdup. by eexists.
Qed.

Lemma _addIndex_sound (indexName : string) (f : JsValue) (s : State) :
  indexes_sound s -> indexes_sound (snd (_addIndex indexName f s)).
Proof.
  intros Hs.
  destruct (_addIndex_state indexName f s) as [-> | [-> | (g & _ & _ & ->)]]; [done|done|].
  intros k index. cbn [snd set_indexListDirty set_indexList _indexList].
  destruct (decide (indexName = k)) as [->|Hne].
  - rewrite lookup_insert_eq. intros [= <-]. constructor.
  - rewrite lookup_insert_ne by done. apply Hs.
Qed.

Lemma loaded_sound (root : option Entry) : indexes_sound (loaded root).
Proof.
  unfold loaded, module_body, bind.
  destruct (_addIndex "all" (Function all_filterFunction) (fresh root)) as [[[]|e] s1] eqn:H1.
  - assert (indexes_sound s1) as Hs1.
    { change s1 with (snd (Normal tt, s1)). rewrite <- H1.
      apply _addIndex_sound. intros k index. cbn. by rewrite lookup_empty. }
    by apply _addIndex_sound.
  - change s1 with (snd (@Throw unit e, s1)). rewrite <- H1.
    apply _addIndex_sound. intros k index. cbn. by rewrite lookup_empty.
Qed.

Lemma perform_sound (a : Action) (s : State) :
  indexes_sound s -> indexes_sound (perform a s).
Proof.
  intros Hs. destruct a; cbn [perform].
  - exact Hs.
  - rewrite getFileInfoList_run. by apply syncFileIndex_sound.
  - rewrite getFilteredList_run. by apply syncFileIndex_sound.
  - unfold getFilenameMatches. rewrite getFilteredList_run. by apply syncFileIndex_sound.
  - by apply _addIndex_sound.
  - by apply syncFileIndex_sound.
  - exact Hs.
Qed.

Lemma reachable_sound (s : State) : reachable s -> indexes_sound s.
Proof.
  induction 1 as [root|a s _ IH].
  - apply loaded_sound.
  - by apply perform_sound.
Qed.

(** ** Suffixes and [slice] *)

Lemma append_cons (c : ascii) (p t : string) :
  String c p +:+ t = String c (p +:+ t).
Proof. reflexivity. Qed.

Lemma length_append (p t : string) :
  String.length (p +:+ t) = (String.length p + String.length t)%nat.
Proof.
  induction p as [|c p IH]; [done|].
  rewrite append_cons. cbn. by rewrite IH.
Qed.

Lemma substring_whole (s : string) : substring 0 (String.length s) s = s.
Proof. induction s as [|c s IH]; cbn; [done|by rewrite IH]. Qed.

Lemma substring_length_le (s : string) (n m : nat) :
  (String.length (substring n m s) <= m)%nat.
Proof.
  revert n m. induction s as [|c s IH]; intros [|n] [|m]; cbn; try lia.
  - specialize (IH 0%nat m). lia.
  - apply IH.
  - apply IH.
Qed.

Lemma substring_after_prefix (p t : string) :
  substring (String.length p) (String.length t) (p +:+ t) = t.
Proof.
  induction p as [|c p IH].
  - apply substring_whole.
  - rewrite append_cons. apply IH.
Qed.

Lemma substring_split (s : string) (n : nat) :
  (n <= String.length s)%nat ->
  s = substring 0 n s +:+ substring n (String.length s - n) s.
Proof.
  revert n. induction s as [|c s IH]; intros [|n] Hn; cbn in *; try lia.
  - done.
  - by rewrite substring_whole.
  - rewrite append_cons. f_equal. apply IH. lia.
Qed.

Lemma slice_last4_long (s : string) :
  (4 <= String.length s)%nat ->
  slice s (Z.of_nat (String.length s) - 4) (Z.of_nat (String.length s))
  = substring (String.length s - 4) 4 s.
Proof.
  intros Hlen. unfold slice.
  destruct (Z.ltb_spec (Z.of_nat (String.length s) - 4) 0); [lia|].
  destruct (Z.ltb_spec (Z.of_nat (String.length s)) 0); [lia|].
  f_equal; lia.
Qed.

Lemma slice_last4_short (s : string) :
  (String.length s < 4)%nat ->
  (String.length (slice s (Z.of_nat (String.length s) - 4) (Z.of_nat (String.length s))) < 4)%nat.
Proof.
  intros Hlen. unfold slice.
  eapply Nat.le_lt_trans; [apply substring_length_le|].
  destruct (Z.ltb_spec (Z.of_nat (String.length s) - 4) 0);
    destruct (Z.ltb_spec (Z.of_nat (String.length s)) 0); lia.
Qed.

(** The "css" filter accepts a name exactly when ".css" is its suffix. *)
Lemma css_filterFunction_suffix (entry : Entry) :
  css_filterFunction entry = true <-> exists p : string, entry_name entry = p +:+ ".css".
Proof.
  unfold css_filterFunction. rewrite String.eqb_eq.
  set (filename := entry_name entry).
  destruct (le_lt_dec 4 (String.length filename)) as [Hlong|Hshort].
  - rewrite slice_last4_long by done. split.
    + intros Hsub. exists (substring 0 (String.length filename - 4) filename).
      pose proof (substring_split filename (String.length filename - 4)) as Hsplit.
      replace (String.length filename - (String.length filename - 4))%nat
        with 4%nat in Hsplit by lia.
      rewrite Hsub in Hsplit. apply Hsplit. lia.
    + intros [p Hp]. rewrite Hp, length_append. cbn [String.length].
      replace (String.length p + 4 - 4)%nat with (String.length p) by lia.
      apply (substring_after_prefix p ".css").
  - split.
    + intros Hsub. apply slice_last4_short in Hshort. rewrite Hsub in Hshort.
      cbn in Hshort. lia.
    + intros [p Hp]. rewrite Hp, length_append in Hshort. cbn in Hshort. lia.
Qed.

(** ** The file-count ceiling *)

Lemma filter_all_filterFunction (files : list Entry) :
  List.filter all_filterFunction files = files.
Proof. induction files as [|e files IH]; cbn; [done|by rewrite IH]. Qed.

Lemma visited_flat_tree (n : nat) :
  visited (flat_tree n) = map numbered_file (seq 0 n).
Proof.
  unfold flat_tree, directory. rewrite visited_unfold. cbn [readEntries].
  induction (seq 0 n) as [|i l IH]; cbn; [done|by rewrite IH].
Qed.

(** The check at the head of [_scanDirectoryRecurse] does fire when a
    caller passes a count above the ceiling: the dialog is shown and the
    directory is not read. *)
Lemma ceiling_check_with_count (dirEntry : Entry) (n : Z) (s : State) :
  10000 < n ->
  _scanDirectoryRecurse (Some dirEntry) (Num n) s = _showMaxFilesDialog s.
Proof.
  intros Hn. cbn [_scanDirectoryRecurse]. rewrite _scanDirectoryRecurse_entry_unfold.
  cbn [gt_number]. by destruct (Z.ltb_spec 10000 n); [|lia].
Qed.

(** No caller passes one: a sync from any state over any tree shows no
    dialog and indexes every file of the walk. *)
Lemma syncFileIndex_indexes_whole_walk (s : State) (k : string) (index : FileIndex) :
  _indexListDirty s = true ->
  _indexList s !! k = Some index ->
  _indexList (syncFileIndex s) !! k = Some (rebuilt (walk (projectRoot s)) index)
  /\ dialogs (trace (syncFileIndex s)) = dialogs (trace s).
Proof.
  intros Hd Hk. split.
  - by rewrite syncFileIndex_lookup, Hd, Hk.
  - apply syncFileIndex_dialogs.
Qed.

(** C1 (the code departs from the claim).  On a directory that holds
    10,001 files the walk is not cut short and the "too many files"
    dialog is not shown: after the sync the "all" index holds all 10,001
    records and the trace contains no dialog.  The dirty flag is
    cleared. *)
Theorem file_count_ceiling_not_enforced :
  let s' := syncFileIndex (loaded (Some (flat_tree 10001))) in
  length (walk (Some (flat_tree 10001))) = 10001%nat
  /\ (exists index : FileIndex,
        _indexList s' !! "all" = Some index
        /\ length (fileInfos index) = 10001%nat)
  /\ dialogs (trace s') = 0%nat
  /\ _indexListDirty s' = false.
Proof.
  cbn zeta.
  assert (length (walk (Some (flat_tree 10001))) = 10001%nat) as Hlen.
  { cbn [walk]. rewrite visited_flat_tree, List.length_map. apply List.length_seq. }
  split; [exact Hlen|]. split; [|split].
  - destruct (syncFileIndex_indexes_whole_walk (loaded (Some (flat_tree 10001))) "all"
                (new_FileIndex "all" all_filterFunction)) as [Hall _]; [done|done|].
    eexists. split; [exact Hall|].
    cbn [rebuilt set_fileInfos fileInfos new_FileIndex filterFunction].
    rewrite filter_all_filterFunction, List.length_map.
    change (projectRoot (loaded (Some (flat_tree 10001)))) with (Some (flat_tree 10001)).
    exact Hlen.
  - by rewrite syncFileIndex_dialogs.
  - apply syncFileIndex_clears_dirty.
Qed.

(** ** Root changes *)

(** C2 (the code departs from the claim).  The handler of
    "projectRootChanged" calls [syncFileIndex]; it never sets the dirty
    flag.  After any root change the flag is false, and on a registry
    that is already clean the handler changes nothing: the records of
    the previous root are served for the new one. *)
Theorem root_change_leaves_flag_clear :
  (forall (s : State) (root : option Entry),
     _indexListDirty (perform (projectRootChanged root) s) = false)
  /\ (forall (s : State) (root : option Entry),
        _indexListDirty s = false ->
        perform (projectRootChanged root) s = set_projectRoot root s)
  /\ (let s1 := perform (projectRootChanged (Some style_tree)) synced_on_css_tree in
      _indexListDirty s1 = false
      /\ projectRoot s1 = Some style_tree
      /\ fst (getFileInfoList "all" s1)
         = Normal [ {| name := "main.js"; fullPath := "/site/main.js" |};
                    {| name := "theme.css"; fullPath := "/site/theme.css" |};
                    {| name := "reset.CSS"; fullPath := "/site/reset.CSS" |} ]).
Proof.
  split; [|split].
  - intros s root. cbn [perform]. apply syncFileIndex_clears_dirty.
  - intros s root Hclean. cbn [perform]. unfold on_projectRootChanged.
    by apply syncFileIndex_clean.
  - cbn zeta. repeat split; vm_compute; reflexivity.
Qed.

(** The flag is set by [markDirty] and by [_addIndex] only, and cleared
    by [syncFileIndex] only. *)
Lemma dirty_flag_setters (a : Action) (s : State) :
  _indexListDirty s = false ->
  _indexListDirty (perform a s) = true ->
  a = do_markDirty \/ exists indexName f, a = do_addIndex indexName f.
Proof.
  intros Hclean Hset. destruct a; cbn [perform] in Hset.
  - by left.
  - rewrite getFileInfoList_run in Hset. cbn in Hset.
    by rewrite syncFileIndex_clears_dirty in Hset.
  - rewrite getFilteredList_run in Hset. cbn in Hset.
    by rewrite syncFileIndex_clears_dirty in Hset.
  - unfold getFilenameMatches in Hset. rewrite getFilteredList_run in Hset. cbn in Hset.
    by rewrite syncFileIndex_clears_dirty in Hset.
  - right. eauto.
  - unfold on_projectRootChanged in Hset. by rewrite syncFileIndex_clears_dirty in Hset.
  - cbn in Hset. congruence.
Qed.

(** ** Every record passes its index's filter *)

(** C3.  From any reachable state, once [syncFileIndex] has run the
    dirty flag is clear and every record of every registered index has
    the name and path of an entry that the index's filter accepts; for a
    filter that reads only the name and the path, every entry with
    that name and path is accepted. *)
Theorem synced_records_pass_filter (s : State) :
  reachable s ->
  let s' := syncFileIndex s in
  _indexListDirty s' = false
  /\ forall (k : string) (index : FileIndex) (r : FileInfo),
       _indexList s' !! k = Some index ->
       In r (fileInfos index) ->
       (exists e : Entry,
          entry_name e = name r /\ entry_fullPath e = fullPath r
          /\ filterFunction index e = true)
       /\ (reads_name_and_path_only (filterFunction index) ->
           forall e : Entry,
             entry_name e = name r -> entry_fullPath e = fullPath r ->
             filterFunction index e = true).
Proof.
  intros Hreach. cbn zeta. split; [apply syncFileIndex_clears_dirty|].
  intros k index r Hk Hr.
  pose proof (syncFileIndex_sound s (reachable_sound s Hreach) k index Hk) as Hall.
  rewrite List.Forall_forall in Hall.
  destruct (Hall r Hr) as (e0 & <- & Hacc). split.
  - by exists e0.
  - intros Hext e Hname Hpath. rewrite <- Hacc. by apply Hext.
Qed.

Lemma synced_records_pass_filter_witness :
  reachable (perform do_markDirty (syncFileIndex (loaded (Some css_tree))))
  /\ forall (k : string) (index : FileIndex) (r : FileInfo),
       _indexList (syncFileIndex (perform do_markDirty (syncFileIndex (loaded (Some css_tree)))))
         !! k = Some index ->
       In r (fileInfos index) ->
       exists e : Entry,
         entry_name e = name r /\ entry_fullPath e = fullPath r
         /\ filterFunction index e = true.
Proof.
  assert (reachable (perform do_markDirty (syncFileIndex (loaded (Some css_tree))))) as Hreach.
  { apply reachable_perform.
    apply (reachable_perform (projectRootChanged (Some css_tree)) (loaded (Some css_tree))).
    apply reachable_loaded. }
  split; [exact Hreach|].
  intros k index r Hk Hr.
  exact (proj1 (proj2 (synced_records_pass_filter _ Hreach) k index r Hk Hr)).
Defined.

(** The same from any dirty state, reachable or not, where the records
    are those of the files of the current walk. *)
Lemma dirty_sync_records_pass_filter (s : State) (k : string) (index : FileIndex) :
  _indexListDirty s = true ->
  _indexList (syncFileIndex s) !! k = Some index ->
  fileInfos index
  = map new_FileInfo (List.filter (filterFunction index) (walk (projectRoot s))).
Proof.
  intros Hd. rewrite syncFileIndex_lookup, Hd.
  destruct (_indexList s !! k) as [index0|]; [|done].
  by intros [= <-].
Qed.

(** ** The "css" index *)

(** C4.  The module registers an index "css" whose filter accepts an
    entry exactly when its name ends in ".css", in that case; on the
    tree main.js, theme.css, reset.CSS the synchronised "css" index
    holds theme.css alone. *)
Theorem css_index_is_case_sensitive :
  (forall root : option Entry,
     exists index : FileIndex,
       _indexList (loaded root) !! "css" = Some index
       /\ forall entry : Entry,
            filterFunction index entry = true
            <-> exists p : string, entry_name entry = p +:+ ".css")
  /\ (exists index : FileIndex,
        _indexList (syncFileIndex (loaded (Some css_tree))) !! "css" = Some index
        /\ fileInfos index = [ {| name := "theme.css"; fullPath := "/site/theme.css" |} ])
  /\ css_filterFunction (file "reset.CSS" "/site/reset.CSS") = false
  /\ css_filterFunction (file "main.js" "/site/main.js") = false.
Proof.
  split; [|split; [|split]].
  - intros root. eexists. split; [apply loaded_css|].
    intros entry. apply css_filterFunction_suffix.
  - eexists. split; [vm_compute; reflexivity|reflexivity].
  - reflexivity.
  - reflexivity.
Qed.

(** ** Synchronising twice *)

(** C5.  A second [syncFileIndex] right after a first one changes
    nothing: the record lists are the same, no rebuild is traced and the
    whole state is the one the first call left, with the flag clear. *)
Theorem syncFileIndex_twice (s : State) :
  let s1 := syncFileIndex s in
  let s2 := syncFileIndex s1 in
  _indexListDirty s1 = false
  /\ (forall k : string,
        fileInfos <$> (_indexList s2 !! k) = fileInfos <$> (_indexList s1 !! k))
  /\ trace s2 = trace s1
  /\ s2 = s1.
Proof.
  cbn zeta. rewrite syncFileIndex_idem.
  split; [apply syncFileIndex_clears_dirty|done].
Qed.

(** ** No project root *)

(** C6.  A dirty registry synchronised while there is no project root
    ends with every registered index empty and the flag clear; the set
    of registered names is unchanged and no dialog is shown. *)
Theorem sync_without_root (s : State) :
  _indexListDirty s = true ->
  projectRoot s = None ->
  let s' := syncFileIndex s in
  _indexListDirty s' = false
  /\ (forall (k : string) (index : FileIndex),
        _indexList s' !! k = Some index -> fileInfos index = [])
  /\ (forall k : string, is_Some (_indexList s' !! k) <-> is_Some (_indexList s !! k))
  /\ dialogs (trace s') = dialogs (trace s).
Proof.
  intros Hd Hroot. cbn zeta. split; [apply syncFileIndex_clears_dirty|].
  split; [|split].
  - intros k index. rewrite syncFileIndex_lookup, Hd, Hroot.
    destruct (_indexList s !! k) as [index0|]; [|done].
    by intros [= <-].
  - intros k. apply syncFileIndex_registered.
  - apply syncFileIndex_dialogs.
Qed.

Lemma sync_without_root_witness :
  _indexListDirty (loaded None) = true
  /\ projectRoot (loaded None) = None
  /\ _indexListDirty (syncFileIndex (loaded None)) = false
  /\ forall (k : string) (index : FileIndex),
       _indexList (syncFileIndex (loaded None)) !! k = Some index -> fileInfos index = [].
Proof.
  split; [reflexivity|]. split; [reflexivity|].
  pose proof (sync_without_root (loaded None) eq_refl eq_refl) as H.
  cbn zeta in H. split; [exact (proj1 H)|exact (proj1 (proj2 H))].
Defined.

(** ** Registering an index *)

(** C7 (amended).  On a registry that holds no index named
    "hasOwnProperty", [_addIndex] throws "Duplicate index name" when the
    name is registered, whatever the second argument; throws "Invalid
    arguments" when the name is not registered and the second argument
    is not a function; both leave the state as it was.  Otherwise, for
    a name other than "__proto__", it returns after inserting an index
    with that name, that filter and no records, and setting the dirty
    flag; nothing else changes. *)
Theorem _addIndex_outcomes (indexName : string) (filterFunction : JsValue) (s : State) :
  _indexList s !! "hasOwnProperty" = None ->
  (is_Some (_indexList s !! indexName) ->
   _addIndex indexName filterFunction s = (Throw (Error "Duplicate index name"), s))
  /\ (_indexList s !! indexName = None ->
      filterFunction = NotAFunction ->
      _addIndex indexName filterFunction s = (Throw (Error "Invalid arguments"), s))
  /\ (_indexList s !! indexName = None ->
      indexName <> "__proto__" ->
      forall f : Entry -> bool,
        filterFunction = Function f ->
        exists s' : State,
          _addIndex indexName filterFunction s = (Normal tt, s')
          /\ _indexList s' !! indexName = Some (mkFileIndex indexName [] f)
          /\ (forall k : string, k <> indexName -> _indexList s' !! k = _indexList s !! k)
          /\ _indexListDirty s' = true
          /\ projectRoot s' = projectRoot s
          /\ trace s' = trace s).
Proof.
  intros Hmethod. unfold _addIndex, throw.
  case_decide as Hshadow.
  { rewrite Hmethod in Hshadow. by destruct Hshadow. }
  split; [|split].
  - intros Hdup. by case_decide.
  - intros Hfree ->. case_decide as Hdup; [|done].
    rewrite Hfree in Hdup. by destruct Hdup.
  - intros Hfree Hproto f ->. case_decide as Hdup.
    { rewrite Hfree in Hdup. by destruct Hdup. }
    unfold assign. case_decide; [done|].
    eexists. split; [reflexivity|].
    cbn [_indexList _indexListDirty projectRoot trace set_indexListDirty set_indexList].
    split; [apply lookup_insert_eq|].
    split; [|done].
    intros k Hk. by apply lookup_insert_ne.
Qed.

Lemma _addIndex_outcomes_witness :
  _indexList (loaded None) !! "hasOwnProperty" = None
  /\ _addIndex "css" (Function all_filterFunction) (loaded None)
     = (Throw (Error "Duplicate index name"), loaded None)
  /\ _addIndex "js" NotAFunction (loaded None)
     = (Throw (Error "Invalid arguments"), loaded None)
  /\ exists s' : State,
       _addIndex "js" (Function all_filterFunction) (loaded None) = (Normal tt, s')
       /\ _indexList s' !! "js" = Some (mkFileIndex "js" [] all_filterFunction)
       /\ _indexListDirty s' = true.
Proof.
  split; [reflexivity|]. split; [|split].
  - apply (proj1 (_addIndex_outcomes "css" (Function all_filterFunction) (loaded None)
                    eq_refl)).
    rewrite loaded_css. by eexists.
  - by apply (proj1 (proj2 (_addIndex_outcomes "js" NotAFunction (loaded None) eq_refl))).
  - destruct (proj2 (proj2 (_addIndex_outcomes "js" (Function all_filterFunction) (loaded None)
                              eq_refl))
                eq_refl ltac:(discriminate) all_filterFunction eq_refl)
      as (s' & Hrun & Hnew & _ & Hdirty & _).
    exists s'. by repeat split.
Defined.

(** Where the unamended statement fails.  A registered name with an
    argument that is not a function gives "Duplicate index name", not
    "Invalid arguments".  The name "__proto__" with a
    function returns normally and registers nothing, so that the same
    call made again returns normally too.  Once an index is named
    "hasOwnProperty", a registered name gives a [TypeError]. *)
Lemma _addIndex_counterexample :
  (fst (_addIndex "css" NotAFunction (loaded None)) = Throw (Error "Duplicate index name")
   /\ fst (_addIndex "css" NotAFunction (loaded None)) <> Throw (Error "Invalid arguments"))
  /\ (fst (_addIndex "__proto__" (Function all_filterFunction) (loaded None)) = Normal tt
      /\ _indexList (snd (_addIndex "__proto__" (Function all_filterFunction) (loaded None)))
           !! "__proto__" = None
      /\ fst (_addIndex "__proto__" (Function all_filterFunction)
                (snd (_addIndex "__proto__" (Function all_filterFunction) (loaded None))))
         = Normal tt)
  /\ (is_Some (_indexList shadowed !! "css")
      /\ fst (_addIndex "css" (Function all_filterFunction) shadowed) = Throw TypeError
      /\ fst (_addIndex "css" (Function all_filterFunction) shadowed)
         <> Throw (Error "Duplicate index name")).
Proof.
  split; [|split].
  - split; [reflexivity|]. intros H. vm_compute in H. discriminate H.
  - split; [reflexivity|]. split; reflexivity.
  - split; [by eexists|]. split; [reflexivity|].
    intros H. vm_compute in H. discriminate H.
Qed.

(** What the call does with "__proto__" in general: the own keys stay
    as they are and the flag is set. *)
Lemma _addIndex___proto__ (f : Entry -> bool) (s : State) :
  _indexList s !! "hasOwnProperty" = None ->
  _indexList s !! "__proto__" = None ->
  _addIndex "__proto__" (Function f) s = (Normal tt, set_indexListDirty true s).
Proof.
  intros Hmethod Hfree. unfold _addIndex.
  case_decide as Hshadow; [rewrite Hmethod in Hshadow; by destruct Hshadow|].
  case_decide as Hdup; [rewrite Hfree in Hdup; by destruct Hdup|].
  unfold assign. case_decide; [|done]. by rewrite set_indexList_same.
Qed.

(** ** Queries *)

(** C8.  [getFilenameMatches] synchronises and then returns, in the
    order of the index, every record of the named index whose name
    equals [filename]; two files style.css in directories /a and /b both
    come back, /a first. *)
Theorem getFilenameMatches_returns_all_matches :
  (forall (indexName filename : string) (s : State),
     getFilenameMatches indexName filename s
     = (match _indexList (syncFileIndex s) !! indexName with
        | Some index =>
            Normal (List.filter (fun r => String.eqb (name r) filename) (fileInfos index))
        | None => Throw (Error "indexName not found")
        end, syncFileIndex s))
  /\ (forall (filename : string) (l : list FileInfo) (r : FileInfo),
        In r (List.filter (fun r => String.eqb (name r) filename) l)
        <-> In r l /\ name r = filename)
  /\ map fullPath (map new_FileInfo (walk (Some style_tree)))
     = ["/a/style.css"; "/b/style.css"]
  /\ fst (getFilenameMatches "all" "style.css" (loaded (Some style_tree)))
     = Normal [ {| name := "style.css"; fullPath := "/a/style.css" |};
                {| name := "style.css"; fullPath := "/b/style.css" |} ].
Proof.
  split; [|split; [|split]].
  - intros indexName filename s. unfold getFilenameMatches. apply getFilteredList_run.
  - intros filename l r. rewrite List.filter_In, String.eqb_eq. done.
  - reflexivity.
  - vm_compute. reflexivity.
Qed.

(** C9.  For a registered index, [getFilteredList] returns the records
    of the synchronised index for which the predicate holds of the name,
    in the order of the index, and the state it leaves is the one
    [syncFileIndex] leaves: the index still holds the same list. *)
Theorem getFilteredList_filters_and_preserves (indexName : string)
    (predicate : string -> bool) (s : State) :
  is_Some (_indexList s !! indexName) ->
  exists (index : FileIndex) (results : list FileInfo),
    _indexList (syncFileIndex s) !! indexName = Some index
    /\ getFilteredList indexName predicate s = (Normal results, syncFileIndex s)
    /\ results = List.filter (fun r => predicate (name r)) (fileInfos index)
    /\ (forall r : FileInfo,
          In r results <-> In r (fileInfos index) /\ predicate (name r) = true)
    /\ _indexList (snd (getFilteredList indexName predicate s)) !! indexName = Some index.
Proof.
  intros Hreg. apply (syncFileIndex_registered s) in Hreg as [index Hk].
  exists index. rewrite getFilteredList_run, Hk. eexists.
  split; [reflexivity|]. split; [reflexivity|]. split; [reflexivity|].
  split; [|exact Hk].
  intros r. apply List.filter_In.
Qed.

Lemma getFilteredList_filters_and_preserves_witness :
  is_Some (_indexList (loaded (Some css_tree)) !! "all")
  /\ exists results : list FileInfo,
       getFilteredList "all" (fun n => String.prefix "t" n) (loaded (Some css_tree))
       = (Normal results, syncFileIndex (loaded (Some css_tree)))
       /\ results = [ {| name := "theme.css"; fullPath := "/site/theme.css" |} ].
Proof.
  assert (is_Some (_indexList (loaded (Some css_tree)) !! "all")) as Hreg.
  { rewrite loaded_all. by eexists. }
  split; [exact Hreg|].
  destruct (getFilteredList_filters_and_preserves "all" (fun n => String.prefix "t" n)
              (loaded (Some css_tree)) Hreg)
    as (index & results & Hk & Hrun & Hres & _).
  exists results. split; [exact Hrun|]. rewrite Hres.
  rewrite syncFileIndex_lookup, loaded_all in Hk.
  change (Some (rebuilt (visited css_tree) (new_FileIndex "all" all_filterFunction))
          = Some index) in Hk.
  injection Hk as <-. reflexivity.
Defined.

(** C10.  [getFileInfoList] on a name that is not registered throws
    "indexName not found" after the sync has run: the state left is the
    synchronised one, with the flag clear and, when the registry was
    dirty, every index rebuilt from the current walk. *)
Theorem getFileInfoList_unknown_after_sync (indexName : string) (s : State) :
  _indexList s !! indexName = None ->
  getFileInfoList indexName s = (Throw (Error "indexName not found"), syncFileIndex s)
  /\ _indexListDirty (snd (getFileInfoList indexName s)) = false
  /\ (_indexListDirty s = true ->
      trace (snd (getFileInfoList indexName s))
      = trace s ++ [PerfUtils_markStart "FileIndexManager.syncFileIndex()";
                    PerfUtils_addMeasurement "FileIndexManager.syncFileIndex()"]
      /\ forall (k : string) (index : FileIndex),
           _indexList s !! k = Some index ->
           _indexList (snd (getFileInfoList indexName s)) !! k
           = Some (rebuilt (walk (projectRoot s)) index)).
Proof.
  intros Hfree. rewrite getFileInfoList_run, syncFileIndex_lookup, Hfree.
  cbn [fmap option_fmap option_map snd]. split; [done|].
  split; [apply syncFileIndex_clears_dirty|].
  intros Hd. split.
  - by rewrite syncFileIndex_dirty.
  - intros k index Hk. by rewrite syncFileIndex_lookup, Hd, Hk.
Qed.

Lemma getFileInfoList_unknown_after_sync_witness :
  _indexList (loaded (Some css_tree)) !! "js" = None
  /\ getFileInfoList "js" (loaded (Some css_tree))
     = (Throw (Error "indexName not found"), syncFileIndex (loaded (Some css_tree)))
  /\ _indexListDirty (snd (getFileInfoList "js" (loaded (Some css_tree)))) = false.
Proof.
  split; [reflexivity|].
  pose proof (getFileInfoList_unknown_after_sync "js" (loaded (Some css_tree)) eq_refl) as H.
  split; [exact (proj1 H)|exact (proj1 (proj2 H))].
Defined.

(** * Further properties of the module *)

(** ** The walk on a registry in any condition *)

Lemma extended_nil (index : FileIndex) : extended [] index = index.
Proof. unfold extended. cbn. rewrite List.app_nil_r. apply set_fileInfos_same. Qed.

Lemma extended_extended (files1 files2 : list Entry) (index : FileIndex) :
  extended files2 (extended files1 index) = extended (files1 ++ files2) index.
Proof.
  unfold extended. cbn [set_fileInfos fileInfos filterFunction indexName].
  by rewrite List.filter_app, List.map_app, List.app_assoc.
Qed.

Lemma filterAndAdd_extended (entry : Entry) (index : FileIndex) :
  filterAndAdd index entry (new_FileInfo entry) = extended [entry] index.
Proof.
  unfold filterAndAdd, extended. cbn [List.filter].
  destruct (filterFunction index entry); cbn [map]; [done|].
  rewrite List.app_nil_r. by rewrite set_fileInfos_same.
Qed.

Lemma _addFileToIndexes_extended (entry : Entry) (s : State) :
  _addFileToIndexes entry s = set_indexList (extended [entry] <$> _indexList s) s.
Proof.
  unfold _addFileToIndexes. f_equal. apply map_fmap_ext.
  intros k index _. apply filterAndAdd_extended.
Qed.

Lemma extended_fmap_fmap (files1 files2 : list Entry) (m : gmap string FileIndex) :
  extended files2 <$> (extended files1 <$> m) = extended (files1 ++ files2) <$> m.
Proof.
  rewrite <- map_fmap_compose. apply map_fmap_ext.
  intros k index _. apply extended_extended.
Qed.

Lemma extended_fmap_nil (m : gmap string FileIndex) : extended [] <$> m = m.
Proof.
  rewrite <- (map_fmap_id m) at 2. apply map_fmap_ext.
  intros k index _. apply extended_nil.
Qed.

Lemma forEach_extends (entries : list Entry) :
  Forall walk_extends entries ->
  forall (fileCount : JsNumber) (s : State),
    snd (fold_left forEach_step entries (fileCount, s))
    = set_indexList (extended (flat_map found entries) <$> _indexList s) s.
Proof.
  induction 1 as [|entry entries Hentry _ IH]; intros fileCount s.
  - cbn. by rewrite extended_fmap_nil, set_indexList_same.
  - cbn [fold_left flat_map]. unfold forEach_step at 2, found at 1.
    destruct (isFile entry); [|destruct (isDirectory entry)]; cbn [fst snd].
    + rewrite IH, _addFileToIndexes_extended. cbn [_indexList set_indexList].
      by rewrite extended_fmap_fmap.
    + rewrite IH, Hentry by done. cbn [_indexList set_indexList].
      by rewrite extended_fmap_fmap.
    + apply IH.
Qed.

Lemma walk_extends_all (dirEntry : Entry) : walk_extends dirEntry.
Proof.
  induction dirEntry as [n p f d|n p f d entries IH] using Entry_tree_ind;
    intros fileCount s Hcount;
    rewrite _scanDirectoryRecurse_entry_unfold, visited_unfold, Hcount;
    cbn [readEntries].
  - by rewrite extended_fmap_nil, set_indexList_same.
  - by apply forEach_extends.
Qed.

(** X9.  [_scanDirectoryRecurse] tests its guards in order.  A null
    entry returns at once, whatever the count.  A count above 10000
    shows the dialog once and leaves every index as it was.  Any other
    count, a missing one included, lets the walk push onto each index,
    after what it held, the records of the files of the subtree that
    its filter accepts, in discovery order, however many there are;
    the trace is left alone. *)
Theorem _scanDirectoryRecurse_by_count (dirEntry : Entry) (fileCount : JsNumber) (s : State) :
  _scanDirectoryRecurse None fileCount s = s
  /\ (gt_number fileCount 10000 = true ->
      _indexList (_scanDirectoryRecurse (Some dirEntry) fileCount s) = _indexList s
      /\ trace (_scanDirectoryRecurse (Some dirEntry) fileCount s)
         = trace s ++ [showModalDialog_ERROR_MAX_FILES])
  /\ (gt_number fileCount 10000 = false ->
      trace (_scanDirectoryRecurse (Some dirEntry) fileCount s) = trace s
      /\ forall (k : string) (index : FileIndex),
           _indexList s !! k = Some index ->
           exists index' : FileIndex,
             _indexList (_scanDirectoryRecurse (Some dirEntry) fileCount s) !! k = Some index'
             /\ filterFunction index' = filterFunction index
             /\ fileInfos index'
                = fileInfos index
                  ++ map new_FileInfo (List.filter (filterFunction index) (visited dirEntry))).
Proof.
  split; [reflexivity|]. cbn [_scanDirectoryRecurse]. split.
  - intros Hcount. rewrite _scanDirectoryRecurse_entry_unfold, Hcount. by split.
  - intros Hcount. rewrite walk_extends_all by done. split; [reflexivity|].
    intros k index Hk. exists (extended (visited dirEntry) index).
    cbn [_indexList set_indexList]. rewrite lookup_fmap, Hk. by repeat split.
Qed.

Lemma _scanDirectoryRecurse_by_count_witness :
  trace (_scanDirectoryRecurse (Some css_tree) (Num 10001) (loaded None))
  = [showModalDialog_ERROR_MAX_FILES]
  /\ exists index' : FileIndex,
       _indexList (_scanDirectoryRecurse (Some css_tree) (Num 10000) (loaded None))
         !! "css" = Some index'
       /\ fileInfos index' = [ {| name := "theme.css"; fullPath := "/site/theme.css" |} ].
Proof.
  split.
  - exact (proj2 (proj1 (proj2 (_scanDirectoryRecurse_by_count css_tree (Num 10001)
                                    (loaded None))) eq_refl)).
  - destruct (proj2 (proj2 (proj2 (_scanDirectoryRecurse_by_count css_tree (Num 10000)
                                     (loaded None))) eq_refl)
                "css" (new_FileIndex "css" css_filterFunction) eq_refl)
      as (index' & Hk & _ & Hrecords).
    exists index'. split; [exact Hk|]. rewrite Hrecords. reflexivity.
Defined.

(** ** What a rebuild leaves in an index *)

(** X1.  A sync of a dirty registry replaces the list of every
    registered index by the records of the files of the walk that the
    index's filter accepts, in discovery order; what the index held
    before is gone, its name and filter stay. *)
Theorem rebuild_replaces_records (s : State) (k : string) (index : FileIndex) :
  _indexListDirty s = true ->
  _indexList s !! k = Some index ->
  _indexList (syncFileIndex s) !! k
  = Some {| indexName := indexName index;
            fileInfos := map new_FileInfo
                           (List.filter (filterFunction index) (walk (projectRoot s)));
            filterFunction := filterFunction index |}.
Proof.
  intros Hd Hk. by rewrite syncFileIndex_lookup, Hd, Hk.
Qed.

Lemma rebuild_replaces_records_witness :
  _indexList (syncFileIndex (markDirty synced_on_css_tree)) !! "css"
  = Some {| indexName := "css";
            fileInfos := [ {| name := "theme.css"; fullPath := "/site/theme.css" |} ];
            filterFunction := css_filterFunction |}.
Proof.
  exact (rebuild_replaces_records (markDirty synced_on_css_tree) "css"
           (rebuilt (visited css_tree) (new_FileIndex "css" css_filterFunction))
           eq_refl eq_refl).
Defined.

(** ** Invalidation and staleness *)

(** X5.  After [markDirty], [getFileInfoList] on a registered index
    returns the records of the files now under the project root that the
    index accepts, whatever the index held. *)
Theorem markDirty_then_query_is_fresh (s : State) (k : string) (index : FileIndex) :
  _indexList s !! k = Some index ->
  fst (getFileInfoList k (markDirty s))
  = Normal (map new_FileInfo (List.filter (filterFunction index) (walk (projectRoot s)))).
Proof.
  intros Hk. rewrite getFileInfoList_run. cbn [fst].
  rewrite syncFileIndex_lookup. cbn [markDirty set_indexListDirty _indexListDirty
                                      _indexList projectRoot].
  by rewrite Hk.
Qed.

Lemma markDirty_then_query_is_fresh_witness :
  fst (getFileInfoList "all"
         (markDirty (perform (fileSystemChanged (Some style_tree)) synced_on_css_tree)))
  = Normal [ {| name := "style.css"; fullPath := "/a/style.css" |};
             {| name := "style.css"; fullPath := "/b/style.css" |} ].
Proof.
  exact (markDirty_then_query_is_fresh
           (perform (fileSystemChanged (Some style_tree)) synced_on_css_tree) "all"
           (rebuilt (visited css_tree) (new_FileIndex "all" all_filterFunction)) eq_refl).
Defined.

(** X6.  While the flag is clear the queries do not look at the file
    system: after a change of the tree that nobody reported,
    [getFileInfoList] returns the list the index held and calls neither
    collaborator. *)
Theorem clean_query_ignores_file_system (s : State) (root : option Entry) (k : string) :
  _indexListDirty s = false ->
  getFileInfoList k (perform (fileSystemChanged root) s)
  = (match _indexList s !! k with
     | Some index => Normal (fileInfos index)
     | None => Throw (Error "indexName not found")
     end, set_projectRoot root s).
Proof.
  intros Hclean. rewrite getFileInfoList_run. cbn [perform].
  by rewrite syncFileIndex_clean.
Qed.

Lemma clean_query_ignores_file_system_witness :
  fst (getFileInfoList "css" (perform (fileSystemChanged (Some style_tree)) synced_on_css_tree))
  = Normal [ {| name := "theme.css"; fullPath := "/site/theme.css" |} ].
Proof.
  rewrite (clean_query_ignores_file_system synced_on_css_tree (Some style_tree) "css" eq_refl).
  reflexivity.
Defined.

(** ** Entries the walk passes over, and the order of the walk *)

Lemma visited_children (n p : string) (f d : bool) (entries : list Entry) :
  visited (mkEntry n p f d (Some entries)) = flat_map found entries.
Proof. reflexivity. Qed.

Lemma indexed_eq (root : Entry) (s : State) (k : string) (index : FileIndex) :
  _indexListDirty s = true ->
  _indexList s !! k = Some index ->
  indexed root s k = map new_FileInfo (List.filter (filterFunction index) (visited root)).
Proof.
  intros Hd Hk. unfold indexed. rewrite syncFileIndex_lookup.
  cbn [set_projectRoot _indexListDirty _indexList projectRoot].
  by rewrite Hd, Hk.
Qed.

(** X7.  A child that is not a file and either is not a directory or
    cannot be read contributes nothing, and the children listed after it
    are indexed all the same: the sync gives the registry it gives when
    that child is absent, and shows no dialog. *)
Theorem skipped_child_changes_nothing (s : State) (n p : string) (f d : bool)
    (before after : list Entry) (child : Entry) :
  isFile child = false ->
  isDirectory child = false \/ readEntries child = None ->
  _indexList (syncFileIndex
                (set_projectRoot (Some (mkEntry n p f d (Some (before ++ child :: after)))) s))
  = _indexList (syncFileIndex
                  (set_projectRoot (Some (mkEntry n p f d (Some (before ++ after)))) s))
  /\ trace (syncFileIndex
              (set_projectRoot (Some (mkEntry n p f d (Some (before ++ child :: after)))) s))
     = trace (syncFileIndex
                (set_projectRoot (Some (mkEntry n p f d (Some (before ++ after)))) s)).
Proof.
  intros Hfile Hskip.
  assert (found child = []) as Hfound.
  { unfold found. rewrite Hfile. destruct Hskip as [->| Hread]; [done|].
    destruct (isDirectory child); [|done].
    rewrite visited_unfold. by rewrite Hread. }
  destruct (_indexListDirty s) eqn:Hd.
  - rewrite !syncFileIndex_dirty by done.
    cbn [_indexList trace projectRoot set_projectRoot walk].
    rewrite !visited_children, !List.flat_map_app. cbn [flat_map].
    by rewrite Hfound.
  - by rewrite !syncFileIndex_clean.
Qed.

Lemma skipped_child_changes_nothing_witness :
  _indexList (syncFileIndex (loaded (Some patchy_tree)))
  = _indexList (syncFileIndex
                  (loaded (Some (directory "p" "/p"
                                   [file "a.css" "/p/a.css";
                                    mkEntry "dev" "/p/dev" false false None;
                                    file "z.css" "/p/z.css"])))).
Proof.
  exact (proj1 (skipped_child_changes_nothing (loaded None) "p" "/p" false true
                  [file "a.css" "/p/a.css"]
                  [mkEntry "dev" "/p/dev" false false None; file "z.css" "/p/z.css"]
                  (mkEntry "locked" "/p/locked" false true None)
                  eq_refl (or_intror eq_refl))).
Defined.

(** X8.  The walk is depth first and follows the listing order: on a
    dirty registry the records of a directory are those of its first
    children followed by those of the rest, a child that is a file gives
    its own record when the filter accepts it, and a child that is a
    directory gives the records of its own walk. *)
Theorem walk_is_depth_first (s : State) (k : string) (index : FileIndex)
    (n p : string) (f d : bool) :
  _indexListDirty s = true ->
  _indexList s !! k = Some index ->
  (forall entries1 entries2 : list Entry,
     indexed (mkEntry n p f d (Some (entries1 ++ entries2))) s k
     = indexed (mkEntry n p f d (Some entries1)) s k
       ++ indexed (mkEntry n p f d (Some entries2)) s k)
  /\ indexed (mkEntry n p f d (Some [])) s k = []
  /\ (forall child : Entry,
        isFile child = true ->
        indexed (mkEntry n p f d (Some [child])) s k
        = if filterFunction index child then [new_FileInfo child] else [])
  /\ (forall child : Entry,
        isFile child = false -> isDirectory child = true ->
        indexed (mkEntry n p f d (Some [child])) s k = indexed child s k).
Proof.
  intros Hd Hk. split; [|split; [|split]].
  - intros entries1 entries2. rewrite !(indexed_eq _ s k index) by done.
    rewrite !visited_children, List.flat_map_app, List.filter_app.
    apply List.map_app.
  - by rewrite (indexed_eq _ s k index).
  - intros child Hfile. rewrite (indexed_eq _ s k index) by done.
    rewrite visited_children. cbn [flat_map]. unfold found. rewrite Hfile.
    cbn [app List.filter]. by destruct (filterFunction index child).
  - intros child Hfile Hdir. rewrite !(indexed_eq _ s k index) by done.
    rewrite visited_children. cbn [flat_map]. unfold found. rewrite Hfile, Hdir.
    by rewrite List.app_nil_r.
Qed.

Lemma walk_is_depth_first_witness :
  indexed style_tree (loaded None) "all"
  = indexed (directory "a" "/a" [file "style.css" "/a/style.css"]) (loaded None) "all"
    ++ indexed (directory "" "/" [directory "b" "/b" [file "style.css" "/b/style.css"]])
         (loaded None) "all".
Proof.
  pose proof (walk_is_depth_first (loaded None) "all" (new_FileIndex "all" all_filterFunction)
                "" "/" false true eq_refl eq_refl) as (Hsplit & _ & _ & Hdir).
  rewrite <- (Hdir (directory "a" "/a" [file "style.css" "/a/style.css"]) eq_refl eq_refl).
  exact (Hsplit [directory "a" "/a" [file "style.css" "/a/style.css"]]
                [directory "b" "/b" [file "style.css" "/b/style.css"]]).
Defined.

(** ** What no sequence of calls undoes *)

Lemma _addIndex_lookup_other (indexName : string) (f : JsValue) (s : State)
    (k : string) (index : FileIndex) :
  _indexList s !! k = Some index ->
  _indexList (snd (_addIndex indexName f s)) !! k = Some index.
Proof.
  intros Hk.
  destruct (_addIndex_state indexName f s) as [-> | [-> | (g & _ & Hfree & ->)]];
    [done|done|].
  cbn [_indexList set_indexListDirty set_indexList].
  rewrite lookup_insert_ne; [done|].
  intros ->. by rewrite Hfree in Hk.
Qed.

Lemma perform_lookup (a : Action) (s : State) (k : string) (index : FileIndex) :
  _indexList s !! k = Some index ->
  _indexList (perform a s) !! k = Some index
  \/ exists files : list Entry, _indexList (perform a s) !! k = Some (rebuilt files index).
Proof.
  intros Hk.
  assert (forall s0 : State, _indexList s0 = _indexList s ->
            _indexList (syncFileIndex s0) !! k = Some index
            \/ exists files, _indexList (syncFileIndex s0) !! k = Some (rebuilt files index))
    as Hsync.
  { intros s0 Hs0. rewrite syncFileIndex_lookup, Hs0, Hk.
    destruct (_indexListDirty s0); cbn; eauto. }
  destruct a; cbn [perform].
  - by left.
  - rewrite getFileInfoList_run. by apply Hsync.
  - rewrite getFilteredList_run. by apply Hsync.
  - unfold getFilenameMatches. rewrite getFilteredList_run. by apply Hsync.
  - left. by apply _addIndex_lookup_other.
  - by apply Hsync.
  - by left.
Qed.

(** X2.  No sequence of calls and events removes an index or gives it
    another name or another filter: an index registered under [k] is
    still registered under [k], with the same name and filter,
    afterwards. *)
Theorem indexes_persist (actions : list Action) (s : State) (k : string) (index : FileIndex) :
  _indexList s !! k = Some index ->
  exists index' : FileIndex,
    _indexList (run actions s) !! k = Some index'
    /\ indexName index' = indexName index
    /\ filterFunction index' = filterFunction index.
Proof.
  revert s index. induction actions as [|a actions IH]; intros s index Hk.
  - by exists index.
  - cbn [run fold_left].
    destruct (perform_lookup a s k index Hk) as [Hsame|[files Hrebuilt]].
    + by apply IH.
    + destruct (IH _ _ Hrebuilt) as (index' & Hk' & Hname & Hfilter).
      by exists index'.
Qed.

Lemma indexes_persist_witness :
  exists index' : FileIndex,
    _indexList (run [do_addIndex "css" (Function all_filterFunction);
                     do_markDirty;
                     projectRootChanged (Some style_tree);
                     do_getFilenameMatches "nowhere" "x"]
                    (loaded (Some css_tree))) !! "css" = Some index'
    /\ indexName index' = "css"
    /\ filterFunction index' = css_filterFunction.
Proof.
  exact (indexes_persist
           [do_addIndex "css" (Function all_filterFunction);
            do_markDirty;
            projectRootChanged (Some style_tree);
            do_getFilenameMatches "nowhere" "x"]
           (loaded (Some css_tree)) "css" (new_FileIndex "css" css_filterFunction) eq_refl).
Defined.

Lemma reachable_builtin (s : State) :
  reachable s ->
  (exists index, _indexList s !! "all" = Some index
                 /\ filterFunction index = all_filterFunction)
  /\ (exists index, _indexList s !! "css" = Some index
                    /\ filterFunction index = css_filterFunction).
Proof.
  induction 1 as [root|a s _ [(ia & Ha & Hfa) (ic & Hc & Hfc)]].
  - split; eexists; (split; [reflexivity|reflexivity]).
  - split.
    + destruct (perform_lookup a s "all" ia Ha) as [H|[files H]]; eauto.
    + destruct (perform_lookup a s "css" ic Hc) as [H|[files H]]; eauto.
Qed.

(** X3.  In every reachable state each index is stored under its own
    name. *)
Theorem index_key_is_its_name (s : State) (k : string) (index : FileIndex) :
  reachable s ->
  _indexList s !! k = Some index ->
  indexName index = k.
Proof.
  intros Hreach. revert k index.
  change (keys_are_names s).
  assert (forall s0 : State, keys_are_names s0 -> keys_are_names (syncFileIndex s0)) as Hsync.
  { intros s0 Hs0 k index. rewrite syncFileIndex_lookup.
    destruct (_indexList s0 !! k) as [index0|] eqn:Hk; [|done].
    destruct (_indexListDirty s0); cbn; intros [= <-]; exact (Hs0 k index0 Hk). }
  assert (forall n f s0, keys_are_names s0 -> keys_are_names (snd (_addIndex n f s0))) as Hadd.
  { intros n f s0 Hs0.
    destruct (_addIndex_state n f s0) as [-> | [-> | (g & _ & _ & ->)]]; [done|done|].
    intros k index. cbn [_indexList set_indexListDirty set_indexList].
    destruct (decide (n = k)) as [->|Hne].
    - rewrite lookup_insert_eq. by intros [= <-].
    - rewrite lookup_insert_ne by done. apply Hs0. }
  induction Hreach as [root|a s _ IH].
  - unfold loaded, module_body, bind.
    destruct (_addIndex "all" (Function all_filterFunction) (fresh root)) as [[[]|e] s1] eqn:H1.
    + apply Hadd. change s1 with (snd (Normal tt, s1)). rewrite <- H1.
      apply Hadd. intros k index. cbn. by rewrite lookup_empty.
    + change s1 with (snd (@Throw unit e, s1)). rewrite <- H1.
      apply Hadd. intros k index. cbn. by rewrite lookup_empty.
  - destruct a; cbn [perform].
    + exact IH.
    + rewrite getFileInfoList_run. by apply Hsync.
    + rewrite getFilteredList_run. by apply Hsync.
    + unfold getFilenameMatches. rewrite getFilteredList_run. by apply Hsync.
    + by apply Hadd.
    + by apply Hsync.
    + exact IH.
Qed.

Lemma index_key_is_its_name_witness :
  reachable (perform (do_addIndex "js" (Function all_filterFunction)) (loaded (Some css_tree)))
  /\ _indexList (perform (do_addIndex "js" (Function all_filterFunction))
                   (loaded (Some css_tree))) !! "js"
     = Some (new_FileIndex "js" all_filterFunction)
  /\ indexName (new_FileIndex "js" all_filterFunction) = "js".
Proof.
  assert (reachable (perform (do_addIndex "js" (Function all_filterFunction))
                       (loaded (Some css_tree)))) as Hreach.
  { apply reachable_perform, reachable_loaded. }
  split; [exact Hreach|]. split; [reflexivity|].
  exact (index_key_is_its_name _ "js" (new_FileIndex "js" all_filterFunction) Hreach eq_refl).
Defined.

(** X13.  The trace of a reachable state is that of a number of
    rebuilds, each a [markStart] followed by its [addMeasurement]: the
    "too many files" dialog is shown by no call and no event. *)
Theorem reachable_trace_is_rebuilds (s : State) :
  reachable s ->
  (exists n : nat, trace s = rebuild_trace n) /\ dialogs (trace s) = 0%nat.
Proof.
  intros Hreach.
  assert (exists n : nat, trace s = rebuild_trace n) as [n Hn].
  { assert (forall s0, (exists n, trace s0 = rebuild_trace n) ->
                       exists n, trace (syncFileIndex s0) = rebuild_trace n) as Hsync.
    { intros s0 [n Hn]. destruct (_indexListDirty s0) eqn:Hd.
      - exists (S n). rewrite syncFileIndex_dirty by done. cbn [trace rebuild_trace].
        by rewrite Hn.
      - exists n. by rewrite syncFileIndex_clean. }
    assert (forall k f s0, trace (snd (_addIndex k f s0)) = trace s0) as Hadd.
    { intros k f s0.
      by destruct (_addIndex_state k f s0) as [-> | [-> | (g & _ & _ & ->)]]. }
    induction Hreach as [root|a s _ IH].
    - by exists 0%nat.
    - destruct a; cbn [perform].
      + exact IH.
      + rewrite getFileInfoList_run. by apply Hsync.
      + rewrite getFilteredList_run. by apply Hsync.
      + unfold getFilenameMatches. rewrite getFilteredList_run. by apply Hsync.
      + by rewrite Hadd.
      + by apply Hsync.
      + exact IH. }
  split; [by exists n|]. rewrite Hn. clear.
  induction n as [|n IH]; [done|].
  cbn [rebuild_trace]. unfold dialogs in *.
  rewrite List.filter_app, List.length_app, IH. reflexivity.
Qed.

Lemma reachable_trace_is_rebuilds_witness :
  dialogs (trace (perform (do_getFileInfoList "all") (loaded (Some (flat_tree 3))))) = 0%nat.
Proof.
  apply (reachable_trace_is_rebuilds
           (perform (do_getFileInfoList "all") (loaded (Some (flat_tree 3))))).
  apply reachable_perform, reachable_loaded.
Defined.

(** ** The indexes against each other *)

Lemma sublist_map_filter {A B : Type} (g : A -> B) (f : A -> bool) (l : list A) :
  sublist (map g (List.filter f l)) (map g l).
Proof.
  induction l as [|x l IH]; cbn.
  - constructor.
  - destruct (f x); cbn; by constructor.
Qed.

Lemma filter_map_new_FileInfo (p : FileInfo -> bool) (files : list Entry) :
  List.filter p (map new_FileInfo files)
  = map new_FileInfo (List.filter (fun e => p (new_FileInfo e)) files).
Proof.
  induction files as [|e files IH]; cbn; [done|].
  destruct (p (new_FileInfo e)); cbn; by rewrite IH.
Qed.

Lemma one_walk_syncFileIndex (s : State) : one_walk s -> one_walk (syncFileIndex s).
Proof.
  intros Hs. destruct (_indexListDirty s) eqn:Hd; [|by rewrite syncFileIndex_clean].
  destruct Hs as (_ & (ia & Ha & Hfa & _) & (ic & Hc & Hfc & _) & _).
  exists (walk (projectRoot s)). split; [|split].
  - exists (rebuilt (walk (projectRoot s)) ia). rewrite syncFileIndex_lookup, Hd, Ha.
    split; [done|]. split; [done|].
    cbn [rebuilt set_fileInfos fileInfos]. by rewrite Hfa, filter_all_filterFunction.
  - exists (rebuilt (walk (projectRoot s)) ic). rewrite syncFileIndex_lookup, Hd, Hc.
    split; [done|]. split; [done|].
    cbn [rebuilt set_fileInfos fileInfos]. by rewrite Hfc.
  - intros k index. rewrite syncFileIndex_lookup, Hd.
    destruct (_indexList s !! k) as [index0|]; [|done].
    intros [= <-]. by left.
Qed.

Lemma one_walk__addIndex (n : string) (f : JsValue) (s : State) :
  one_walk s -> one_walk (snd (_addIndex n f s)).
Proof.
  intros Hs.
  destruct (_addIndex_state n f s) as [-> | [-> | (g & _ & Hfree & ->)]]; [done|done|].
  destruct Hs as (files & (ia & Ha & Hfa & Hra) & (ic & Hc & Hfc & Hrc) & Hall).
  exists files.
  unfold one_walk. cbn [_indexList set_indexListDirty set_indexList].
  split; [|split].
  - exists ia. rewrite lookup_insert_ne; [done|].
    intros ->. by rewrite Hfree in Ha.
  - exists ic. rewrite lookup_insert_ne; [done|].
    intros ->. by rewrite Hfree in Hc.
  - intros k index. destruct (decide (n = k)) as [->|Hne].
    + rewrite lookup_insert_eq. intros [= <-]. by right.
    + rewrite lookup_insert_ne by done. apply Hall.
Qed.

Lemma reachable_one_walk (s : State) : reachable s -> one_walk s.
Proof.
  induction 1 as [root|a s _ IH].
  - exists []. split; [|split].
    + by exists (new_FileIndex "all" all_filterFunction).
    + by exists (new_FileIndex "css" css_filterFunction).
    + intros k index Hk. right.
      rewrite loaded_eq in Hk. cbn [_indexList] in Hk.
      destruct (decide (k = "css")) as [->|Hcss].
      { rewrite lookup_insert_eq in Hk. by injection Hk as <-. }
      rewrite lookup_insert_ne in Hk by done.
      destruct (decide (k = "all")) as [->|Hall].
      { rewrite lookup_insert_eq in Hk. by injection Hk as <-. }
      rewrite lookup_insert_ne in Hk by done. by rewrite lookup_empty in Hk.
  - destruct a; cbn [perform].
    + exact IH.
    + rewrite getFileInfoList_run. by apply one_walk_syncFileIndex.
    + rewrite getFilteredList_run. by apply one_walk_syncFileIndex.
    + unfold getFilenameMatches. rewrite getFilteredList_run. by apply one_walk_syncFileIndex.
    + by apply one_walk__addIndex.
    + by apply one_walk_syncFileIndex.
    + exact IH.
Qed.

(** X4.  In every reachable state the records of any index are, in
    the same order, among the records of the "all" index. *)
Theorem every_index_within_all (s : State) (k : string) (index all : FileIndex) :
  reachable s ->
  _indexList s !! k = Some index ->
  _indexList s !! "all" = Some all ->
  sublist (fileInfos index) (fileInfos all).
Proof.
  intros Hreach Hk Hall.
  destruct (reachable_one_walk s Hreach) as (files & (ia & Ha & _ & Hra) & _ & Hevery).
  rewrite Hall in Ha. injection Ha as <-. rewrite Hra.
  destruct (Hevery k index Hk) as [-> | ->].
  - apply sublist_map_filter.
  - apply sublist_nil_l.
Qed.

Lemma every_index_within_all_witness :
  sublist [ {| name := "theme.css"; fullPath := "/site/theme.css" |} ]
          [ {| name := "main.js"; fullPath := "/site/main.js" |};
            {| name := "theme.css"; fullPath := "/site/theme.css" |};
            {| name := "reset.CSS"; fullPath := "/site/reset.CSS" |} ].
Proof.
  apply (every_index_within_all synced_on_css_tree "css"
           (rebuilt (visited css_tree) (new_FileIndex "css" css_filterFunction))
           (rebuilt (visited css_tree) (new_FileIndex "all" all_filterFunction))).
  - apply (reachable_perform (do_getFileInfoList "all") (loaded (Some css_tree))).
    apply reachable_loaded.
  - reflexivity.
  - reflexivity.
Defined.

(** X14.  In every reachable state the "css" index holds exactly the
    records of the "all" index that the ".css" filter accepts when it is
    given an entry with the record's name and path, in the same
    order. *)
Theorem css_index_is_all_filtered (s : State) (css all : FileIndex) :
  reachable s ->
  _indexList s !! "css" = Some css ->
  _indexList s !! "all" = Some all ->
  fileInfos css
  = List.filter (fun r => css_filterFunction (file (name r) (fullPath r))) (fileInfos all).
Proof.
  intros Hreach Hcss Hall.
  destruct (reachable_one_walk s Hreach)
    as (files & (ia & Ha & _ & Hra) & (ic & Hc & _ & Hrc) & _).
  rewrite Hall in Ha. injection Ha as <-.
  rewrite Hcss in Hc. injection Hc as <-.
  rewrite Hra, Hrc, filter_map_new_FileInfo. reflexivity.
Qed.

Lemma css_index_is_all_filtered_witness :
  reachable (run [do_getFileInfoList "css"; fileSystemChanged None] (loaded (Some css_tree)))
  /\ fileInfos (rebuilt (visited css_tree) (new_FileIndex "css" css_filterFunction))
     = List.filter (fun r => css_filterFunction (file (name r) (fullPath r)))
         (fileInfos (rebuilt (visited css_tree) (new_FileIndex "all" all_filterFunction))).
Proof.
  assert (reachable (run [do_getFileInfoList "css"; fileSystemChanged None]
                       (loaded (Some css_tree)))) as Hreach.
  { apply (reachable_perform (fileSystemChanged None)).
    apply (reachable_perform (do_getFileInfoList "css")).
    apply reachable_loaded. }
  split; [exact Hreach|].
  exact (css_index_is_all_filtered _ _ _ Hreach eq_refl eq_refl).
Defined.

(** ** Queries, once more *)

(** X10.  [getFilteredList] with a predicate that accepts every name
    is [getFileInfoList]: same result or same exception, same state. *)
Theorem getFilteredList_accepting_all (k : string) (s : State) :
  getFilteredList k (fun _ => true) s = getFileInfoList k s.
Proof.
  rewrite getFilteredList_run, getFileInfoList_run.
  destruct (_indexList (syncFileIndex s) !! k) as [index|]; [|done].
  do 2 f_equal. induction (fileInfos index) as [|r l IH]; cbn; [done|by rewrite IH].
Qed.

(** X11.  On a name that is not registered [getFilteredList] and
    [getFilenameMatches] throw "indexName not found"; the predicate is
    not consulted and the state left is the synchronised one. *)
Theorem filtered_queries_on_unknown_index (k : string) (s : State) :
  _indexList s !! k = None ->
  (forall predicate : string -> bool,
     getFilteredList k predicate s
     = (Throw (Error "indexName not found"), syncFileIndex s))
  /\ (forall filename : string,
        getFilenameMatches k filename s
        = (Throw (Error "indexName not found"), syncFileIndex s)).
Proof.
  intros Hfree.
  assert (_indexList (syncFileIndex s) !! k = None) as Hk.
  { by rewrite syncFileIndex_lookup, Hfree. }
  split.
  - intros predicate. by rewrite getFilteredList_run, Hk.
  - intros filename. unfold getFilenameMatches. by rewrite getFilteredList_run, Hk.
Qed.

Lemma filtered_queries_on_unknown_index_witness :
  getFilenameMatches "html" "index.html" (loaded (Some css_tree))
  = (Throw (Error "indexName not found"), synced_on_css_tree).
Proof.
  exact (proj2 (filtered_queries_on_unknown_index "html" (loaded (Some css_tree)) eq_refl)
           "index.html").
Defined.

(** ** Registering an index on a synchronised registry *)

(** X12.  On a registry with no index named "hasOwnProperty", when a
    new index with a name other than "__proto__" is added to a registry
    that has just been synchronised and the registry is synchronised
    again over the same tree, the new index holds the records of the
    files of the walk that its filter accepts, and every other name is
    bound to what it was bound to before the addition. *)
Theorem register_then_sync (s0 : State) (k : string) (f : Entry -> bool) :
  _indexListDirty s0 = true ->
  _indexList s0 !! "hasOwnProperty" = None ->
  k <> "__proto__" ->
  _indexList s0 !! k = None ->
  let s := syncFileIndex s0 in
  let s1 := snd (_addIndex k (Function f) s) in
  let s2 := syncFileIndex s1 in
  fst (_addIndex k (Function f) s) = Normal tt
  /\ _indexListDirty s1 = true
  /\ _indexList s2 !! k
     = Some {| indexName := k;
               fileInfos := map new_FileInfo (List.filter f (walk (projectRoot s0)));
               filterFunction := f |}
  /\ forall k' : string, k' <> k -> _indexList s2 !! k' = _indexList s !! k'.
Proof.
  intros Hd Hmethod Hproto Hfree. cbn zeta.
  assert (_indexList (syncFileIndex s0) !! k = None) as Hk.
  { by rewrite syncFileIndex_lookup, Hfree. }
  assert (_indexList (syncFileIndex s0) !! "hasOwnProperty" = None) as Hm.
  { by rewrite syncFileIndex_lookup, Hmethod. }
  assert (_addIndex k (Function f) (syncFileIndex s0)
          = (Normal tt,
             set_indexListDirty true
               (set_indexList (<[k := new_FileIndex k f]> (_indexList (syncFileIndex s0)))
                  (syncFileIndex s0)))) as Hadd.
  { unfold _addIndex.
    case_decide as Hshadow; [rewrite Hm in Hshadow; by destruct Hshadow|].
    case_decide as Hdup; [rewrite Hk in Hdup; by destruct Hdup|].
    unfold assign. by case_decide. }
  rewrite Hadd. cbn [fst snd]. split; [done|]. split; [done|].
  assert (projectRoot (syncFileIndex s0) = projectRoot s0) as Hroot.
  { by rewrite syncFileIndex_dirty. }
  split.
  - rewrite syncFileIndex_lookup.
    cbn [_indexListDirty _indexList projectRoot set_indexListDirty set_indexList].
    by rewrite lookup_insert_eq, Hroot.
  - intros k' Hne. rewrite syncFileIndex_lookup.
    cbn [_indexListDirty _indexList projectRoot set_indexListDirty set_indexList].
    rewrite lookup_insert_ne, Hroot by done.
    rewrite (syncFileIndex_lookup s0), Hd.
    by destruct (_indexList s0 !! k').
Qed.

Lemma register_then_sync_witness :
  _indexList (syncFileIndex
                (snd (_addIndex "js" (Function (fun e => String.prefix "main" (entry_name e)))
                        synced_on_css_tree))) !! "js"
  = Some {| indexName := "js";
            fileInfos := [ {| name := "main.js"; fullPath := "/site/main.js" |} ];
            filterFunction := fun e => String.prefix "main" (entry_name e) |}.
Proof.
  exact (proj1 (proj2 (proj2 (register_then_sync (loaded (Some css_tree)) "js"
                                (fun e => String.prefix "main" (entry_name e))
                                eq_refl eq_refl ltac:(discriminate) eq_refl)))).
Defined.
